(** * system/types/bt_transport.h

    A verification development for the transport-type header of the
    Bluetooth host stack: three object-like macros naming the transport
    kinds, the typedef [tBT_TRANSPORT] (a [uint8_t]) and the inline
    function [bt_transport_text], which turns a transport code into a
    label for logs.

    The header is embedded shallowly.  An unsigned 8-bit object is a [Z]
    in the range 0..255.  The function receives its argument by const
    reference, so it is written in a small state-and-failure monad over a
    store of [uint8_t] objects: the only primitive it uses is a read
    through the reference. *)

From Stdlib Require Import ZArith Lia Ascii String DecimalString.
From stdpp Require Import base option gmap strings.

Local Open Scope Z_scope.

(** ** The preprocessor view of the header *)

(** An object-like macro whose replacement list is one integer literal.
    The preprocessor can do two things with its name: replace it by the
    literal, or (operator [#] inside a function-like macro) turn the
    unexpanded token into a string literal. *)
Record object_macro := ObjectMacro {
  macro_name : string;
  macro_body : Z
}.

Definition expand (m : object_macro) : Z := macro_body m.
Definition stringify (m : object_macro) : string := macro_name m.

(** Lines 21-23. *)
Definition BT_TRANSPORT_AUTO : object_macro :=
  ObjectMacro "BT_TRANSPORT_AUTO" 0.
Definition BT_TRANSPORT_BR_EDR : object_macro :=
  ObjectMacro "BT_TRANSPORT_BR_EDR" 1.
Definition BT_TRANSPORT_LE : object_macro :=
  ObjectMacro "BT_TRANSPORT_LE" 2.

(** The directives of the header that touch the macro table, in file
    order: three object-like definitions, the function-like helper
    [CASE_RETURN_TEXT] (line 26) and its [#undef] (line 40). *)
Inductive directive :=
  | Define (m : object_macro)
  | DefineFunctionLike (name : string)
  | Undef (name : string).

Inductive macro_entry :=
  | IntegerConstant (value : Z)
  | FunctionLike.

Definition bt_transport_h : list directive :=
  [ Define BT_TRANSPORT_AUTO;
    Define BT_TRANSPORT_BR_EDR;
    Define BT_TRANSPORT_LE;
    DefineFunctionLike "CASE_RETURN_TEXT";
    Undef "CASE_RETURN_TEXT" ].

Definition run_directive (table : gmap string macro_entry) (d : directive)
  : gmap string macro_entry :=
  match d with
  | Define m => <[macro_name m := IntegerConstant (macro_body m)]> table
  | DefineFunctionLike name => <[name := FunctionLike]> table
  | Undef name => delete name table
  end.

(** The macro table a translation unit is left with after including the
    header. *)
Definition preprocess (ds : list directive) : gmap string macro_entry :=
  foldl run_directive ∅ ds.

Definition integer_of_entry (e : macro_entry) : option Z :=
  match e with
  | IntegerConstant v => Some v
  | FunctionLike => None
  end.

(** The named integer constants the header leaves defined. *)
Definition exported_constants (ds : list directive) : gmap string Z :=
  omap integer_of_entry (preprocess ds).

(** ** [typedef uint8_t tBT_TRANSPORT] (line 24) *)

Definition tBT_TRANSPORT : Type := Z.

Definition UINT8_MAX : Z := 255.

(** The values an object of type [uint8_t] can hold. *)
Definition is_uint8 (v : Z) : Prop := 0 <= v <= UINT8_MAX.

(** Conversion of an integer to [uint8_t]: reduction modulo 2^8. *)
Definition to_uint8 (v : Z) : tBT_TRANSPORT := v mod 256.

(** Every transport code, in increasing order. *)
Definition all_uint8 : list tBT_TRANSPORT := seqZ 0 256.

(** ** [std::to_string(int)]

    The header calls [std::to_string] on a [uint8_t] lvalue.  Overload
    resolution promotes the operand to [int], so the overload taken is
    [to_string(int)], whose result is what [sprintf] prints for ["%d"]:
    an optional minus sign followed by the decimal digits, most
    significant first, without padding.  An [int] has at most ten
    digits. *)

Definition INT_MIN : Z := - 2 ^ 31.
Definition INT_MAX : Z := 2 ^ 31 - 1.
Definition INT_DIGITS10 : nat := 10.

Definition digit_char (d : Z) : ascii :=
  ascii_of_N (Z.to_N (48 + d)).

(** Digits are produced least significant first and pushed in front of
    the ones already written. *)
Fixpoint to_chars_10 (budget : nat) (val : Z) (written : string) : string :=
  match budget with
  | O => written
  | S budget' =>
      let written' := String (digit_char (val mod 10)) written in
      if val <? 10 then written'
      else to_chars_10 budget' (val / 10) written'
  end.

Definition to_string (val : Z) : string :=
  if val <? 0
  then String "-" (to_chars_10 INT_DIGITS10 (- val) "")
  else to_chars_10 INT_DIGITS10 val "".

(** ** The store and the monad of function bodies *)

(** A reference designates a [uint8_t] object in a store.  A computation
    takes the store and either returns a value with the store it leaves
    behind, or has no defined behaviour ([None]): the reference was not
    bound to a live object. *)
Definition reference : Type := positive.

Definition Cxx (A : Type) : Type :=
  gmap positive Z → option (A * gmap positive Z).

#[global] Instance Cxx_ret : MRet Cxx :=
  λ A (x : A) (σ : gmap positive Z), Some (x, σ).

#[global] Instance Cxx_bind : MBind Cxx :=
  λ A B (k : A → Cxx B) (c : Cxx A) (σ : gmap positive Z),
    match c σ with
    | Some (x, σ') => k x σ'
    | None => None
    end.

(** Lvalue-to-rvalue conversion through a reference. *)
Definition read (r : reference) : Cxx Z :=
  λ σ, match σ !! r with
       | Some v => Some (v, σ)
       | None => None
       end.

Definition returned {A} (c : Cxx A) (σ : gmap positive Z) : option A :=
  fst <$> c σ.

Definition final_store {A} (c : Cxx A) (σ : gmap positive Z)
  : option (gmap positive Z) :=
  snd <$> c σ.

(** ** [bt_transport_text] (lines 26-39) *)

(** [CASE_RETURN_TEXT(code)] is [case code: return #code]: the label is
    the expansion of [code], the returned literal its spelling.  The
    remaining labels of the [switch] are the continuation. *)
Definition CASE_RETURN_TEXT (code : object_macro) (scrutinee : Z)
    (other_labels : Cxx string) : Cxx string :=
  if scrutinee =? expand code then mret (stringify code) else other_labels.

Definition bt_transport_text (transport : reference) : Cxx string :=
  scrutinee ← read transport;
  CASE_RETURN_TEXT BT_TRANSPORT_AUTO scrutinee $
  CASE_RETURN_TEXT BT_TRANSPORT_BR_EDR scrutinee $
  CASE_RETURN_TEXT BT_TRANSPORT_LE scrutinee $
  (* default: *)
  (operand ← read transport;
   mret (("UNKNOWN[" +:+ to_string operand) +:+ "]")).

(** ** Vocabulary of the specification *)

(** The recognized transport codes. *)
Definition recognized (code : Z) : Prop := code = 0 ∨ code = 1 ∨ code = 2.

#[global] Instance recognized_dec code : Decision (recognized code).
Proof. unfold recognized. apply _. Defined.

(** The symbolic name the specification attaches to each recognized
    code. *)
Definition symbolic_names : list (Z * string) :=
  [ (0, "BT_TRANSPORT_AUTO");
    (1, "BT_TRANSPORT_BR_EDR");
    (2, "BT_TRANSPORT_LE") ].

(** The decimal representation of a natural number, as the printer of
    Stdlib's [Decimal] numbers gives it; independent of [to_string]. *)
Definition decimal_representation (n : Z) : string :=
  NilZero.string_of_uint (N.to_uint (Z.to_N n)).

(** The fallback label of the specification: [UNKNOWN[<value>]]. *)
Definition fallback_label (code : Z) : string :=
  "UNKNOWN[" +:+ decimal_representation code +:+ "]".

(** Reading a string of decimal digits back, most significant digit
    first.  The second component is the weight of the position in front
    of the string. *)
Definition digit_of_char (c : ascii) : Z := Z.of_N (N_of_ascii c) - 48.

Fixpoint digits_value (s : string) : Z * Z :=
  match s with
  | EmptyString => (0, 1)
  | String c s' =>
      let '(v, w) := digits_value s' in (digit_of_char c * w + v, 10 * w)
  end.

Definition decimal_value (s : string) : Z := (digits_value s).1.

(** ** Character classes of a label *)

Fixpoint string_forallb (p : ascii → bool) (s : string) : bool :=
  match s with
  | EmptyString => true
  | String c s' => p c && string_forallb p s'
  end.

Definition char_between (lo hi c : ascii) : bool :=
  ((N_of_ascii lo <=? N_of_ascii c) && (N_of_ascii c <=? N_of_ascii hi))%N.

Definition is_digit (c : ascii) : bool := char_between "0" "9" c.

(** What a label is spelled with: capital letters, digits, the
    underscore and the two square brackets. *)
Definition is_label_char (c : ascii) : bool :=
  char_between "A" "Z" c || is_digit c
  || Ascii.eqb c "_" || Ascii.eqb c "[" || Ascii.eqb c "]".

Definition leading_zero (s : string) : bool :=
  match s with
  | String c _ => Ascii.eqb c "0"
  | EmptyString => false
  end.

(** * Properties *)

(** ** Strings *)

Lemma string_length_app (s t : string) :
  String.length (s +:+ t) = (String.length s + String.length t)%nat.
Proof. induction s as [|c s IH]; simpl; [done | by rewrite IH]. Qed.

Lemma string_app_inj_r (s1 s2 t : string) : s1 +:+ t = s2 +:+ t → s1 = s2.
Proof.
  revert s2. induction s1 as [|c1 s1 IH]; intros [|c2 s2] Heq; simpl in *.
  - done.
  - apply (f_equal String.length) in Heq.
    rewrite !string_length_app in Heq. simpl in Heq. lia.
  - apply (f_equal String.length) in Heq.
    rewrite !string_length_app in Heq. simpl in Heq. lia.
  - injection Heq as -> Heq. f_equal. by apply IH.
Qed.

(** ** [uint8_t] *)

Lemma to_uint8_is_uint8 v : is_uint8 (to_uint8 v).
Proof.
  unfold is_uint8, to_uint8, UINT8_MAX.
  pose proof (Z.mod_pos_bound v 256). lia.
Qed.

Lemma to_uint8_id v : is_uint8 v → to_uint8 v = v.
Proof.
  unfold is_uint8, to_uint8, UINT8_MAX. intros Hv.
  apply Z.mod_small. lia.
Qed.

Lemma elem_of_all_uint8 v : v ∈ all_uint8 ↔ is_uint8 v.
Proof.
  unfold all_uint8, is_uint8, UINT8_MAX. rewrite elem_of_seqZ. lia.
Qed.

(** ** [std::to_string] *)

Lemma digit_of_digit_char d : 0 <= d <= 9 → digit_of_char (digit_char d) = d.
Proof.
  intros Hd. unfold digit_of_char, digit_char.
  rewrite N_ascii_embedding by lia. lia.
Qed.

(** Reading back what [to_chars_10] wrote: the digits of [val] land in
    front of what was already there. *)
Lemma digits_value_to_chars_10 budget : ∀ val written,
  0 <= val < 10 ^ Z.of_nat budget →
  (digits_value (to_chars_10 budget val written)).1
  = val * (digits_value written).2 + (digits_value written).1.
Proof.
  induction budget as [|budget IH]; intros val written Hval.
  - simpl in *. assert (val = 0) as -> by lia. lia.
  - rewrite Nat2Z.inj_succ, Z.pow_succ_r in Hval by lia.
    cbn [to_chars_10].
    assert (Hdigit : 0 <= val `mod` 10 <= 9)
      by (pose proof (Z.mod_pos_bound val 10); lia).
    destruct (Z.ltb_spec val 10) as [Hlt|Hge].
    + cbn [digits_value]. destruct (digits_value written) as [v w].
      cbn [fst snd]. rewrite digit_of_digit_char by done.
      rewrite Z.mod_small by lia. done.
    + rewrite IH by (split; [apply Z.div_pos|apply Z.div_lt_upper_bound]; lia).
      cbn [digits_value]. destruct (digits_value written) as [v w].
      cbn [fst snd]. rewrite digit_of_digit_char by done.
      pose proof (Z.div_mod val 10). lia.
Qed.

Lemma decimal_value_to_string val :
  0 <= val <= INT_MAX → decimal_value (to_string val) = val.
Proof.
  intros Hval. unfold to_string, decimal_value.
  destruct (Z.ltb_spec val 0); [lia|].
  rewrite digits_value_to_chars_10; [simpl; lia|].
  unfold INT_MAX, INT_DIGITS10 in *. lia.
Qed.

Lemma to_string_negative val :
  INT_MIN <= val < 0 → to_string val = String "-" (to_string (- val)).
Proof.
  intros Hval. unfold to_string.
  destruct (Z.ltb_spec val 0); [|lia].
  by destruct (Z.ltb_spec (- val) 0); [lia|].
Qed.

Lemma to_string_inj v1 v2 :
  0 <= v1 <= INT_MAX → 0 <= v2 <= INT_MAX →
  to_string v1 = to_string v2 → v1 = v2.
Proof.
  intros H1 H2 Heq.
  rewrite <-(decimal_value_to_string v1), <-(decimal_value_to_string v2) by done.
  by rewrite Heq.
Qed.

(** For how many digits [to_chars_10] writes: at least one, and no more
    than the number of digits that bounds the value. *)
Lemma length_to_chars_10 budget : ∀ (k : nat) val written,
  (0 < k ≤ budget)%nat → 0 <= val < 10 ^ Z.of_nat k →
  (S (String.length written)
   ≤ String.length (to_chars_10 budget val written)
   ≤ k + String.length written)%nat.
Proof.
  induction budget as [|budget IH]; intros k val written Hk Hval; [lia|].
  cbn [to_chars_10]. destruct (Z.ltb_spec val 10) as [Hlt|Hge].
  - simpl. lia.
  - destruct k as [|[|k]]; [lia| simpl in Hval; lia |].
    rewrite Nat2Z.inj_succ, Z.pow_succ_r in Hval by lia.
    specialize (IH (S k) (val / 10)
                  (String (digit_char (val `mod` 10)) written)).
    cbn [String.length] in IH. 
    assert (0 <= val / 10 < 10 ^ Z.of_nat (S k)).
    { split; [apply Z.div_pos|apply Z.div_lt_upper_bound]; lia. }
    lia.
Qed.

Lemma length_to_string_uint8 v :
  is_uint8 v → (1 ≤ String.length (to_string v) ≤ 3)%nat.
Proof.
  unfold is_uint8, UINT8_MAX, to_string. intros Hv.
  destruct (Z.ltb_spec v 0); [lia|].
  pose proof (length_to_chars_10 INT_DIGITS10 3 v "") as Hlen.
  simpl String.length in Hlen. apply Hlen; unfold INT_DIGITS10; lia.
Qed.

(** On the 256 values of a [uint8_t], [to_string] prints the decimal
    representation.  Checked value by value. *)
Lemma to_string_all_uint8 :
  Forall (λ v, to_string v = decimal_representation v) all_uint8.
Proof. compute_done. Qed.

Lemma to_string_decimal v :
  is_uint8 v → to_string v = decimal_representation v.
Proof.
  intros Hv. pose proof to_string_all_uint8 as Hall.
  rewrite Forall_forall in Hall. by apply Hall, elem_of_all_uint8.
Qed.

(** ** Running [bt_transport_text] *)

Section run.
Context (σ : gmap positive Z) (r : reference).

Lemma read_live v :
  σ !! r = Some v → read r σ = Some (v, σ).
Proof. intros Hr. unfold read. by rewrite Hr. Qed.

Lemma bind_read_live {A} v (k : Z → Cxx A) :
  σ !! r = Some v → (read r ≫= k) σ = k v σ.
Proof.
  intros Hr. unfold mbind, Cxx_bind. by rewrite (read_live v).
Qed.

Lemma CASE_RETURN_TEXT_hit code v rest :
  v = expand code →
  CASE_RETURN_TEXT code v rest σ = Some (stringify code, σ).
Proof. intros ->. unfold CASE_RETURN_TEXT. by rewrite Z.eqb_refl. Qed.

Lemma CASE_RETURN_TEXT_miss code v rest :
  v ≠ expand code → CASE_RETURN_TEXT code v rest σ = rest σ.
Proof.
  intros Hne. unfold CASE_RETURN_TEXT.
  by destruct (Z.eqb_spec v (expand code)).
Qed.

(** The two paths through the [switch]. *)
Lemma bt_transport_text_case code :
  σ !! r = Some (expand code) →
  code ∈ [BT_TRANSPORT_AUTO; BT_TRANSPORT_BR_EDR; BT_TRANSPORT_LE] →
  bt_transport_text r σ = Some (stringify code, σ).
Proof.
  intros Hr Hcode. unfold bt_transport_text.
  rewrite (bind_read_live (expand code)) by done.
  rewrite !elem_of_cons, elem_of_nil in Hcode.
  destruct Hcode as [-> | [-> | [-> | []]]].
  - by rewrite CASE_RETURN_TEXT_hit.
  - rewrite CASE_RETURN_TEXT_miss by done. by rewrite CASE_RETURN_TEXT_hit.
  - rewrite !CASE_RETURN_TEXT_miss by done. by rewrite CASE_RETURN_TEXT_hit.
Qed.

Lemma bt_transport_text_default v :
  σ !! r = Some v → ¬ recognized v →
  bt_transport_text r σ = Some (("UNKNOWN[" +:+ to_string v) +:+ "]", σ).
Proof.
  intros Hr Hv. unfold bt_transport_text, recognized in *.
  rewrite (bind_read_live v) by done.
  rewrite !CASE_RETURN_TEXT_miss by (unfold expand; simpl; lia).
  by rewrite (bind_read_live v).
Qed.

End run.

Lemma recognized_cases v :
  recognized v →
  ∃ code, v = expand code ∧
    code ∈ [BT_TRANSPORT_AUTO; BT_TRANSPORT_BR_EDR; BT_TRANSPORT_LE].
Proof.
  intros [-> | [-> | ->]];
    [exists BT_TRANSPORT_AUTO|exists BT_TRANSPORT_BR_EDR|exists BT_TRANSPORT_LE];
    (split; [done|set_solver]).
Qed.

(** The table of the specification is the spelling and the value of the
    three macros. *)
Lemma symbolic_names_macros :
  symbolic_names
  = (λ m, (expand m, stringify m))
      <$> [BT_TRANSPORT_AUTO; BT_TRANSPORT_BR_EDR; BT_TRANSPORT_LE].
Proof. reflexivity. Qed.

Lemma symbolic_names_recognized code name :
  (code, name) ∈ symbolic_names → recognized code.
Proof.
  unfold symbolic_names, recognized.
  rewrite !elem_of_cons, elem_of_nil.
  intros [Heq | [Heq | [Heq | []]]]; injection Heq as -> _; auto.
Qed.

(** Split on the path the [switch] takes for the code stored at [r], and
    rewrite the call accordingly. *)
Ltac switch_on σ r code Hr :=
  destruct (decide (recognized code)) as [Hrec|Hrec];
  [ destruct (recognized_cases code Hrec) as (m & -> & Hm);
    rewrite ?(bt_transport_text_case σ r m Hr Hm)
  | rewrite ?(bt_transport_text_default σ r code Hr Hrec) ].

(** ** The claims *)

(** C1: when the code read through the reference is 0, 1 or 2, the
    function returns exactly the spelling of the matching constant:
    BT_TRANSPORT_AUTO for 0, BT_TRANSPORT_BR_EDR for 1 and
    BT_TRANSPORT_LE for 2. *)
Theorem bt_transport_text_symbolic_name (σ : gmap positive Z) r code name :
  σ !! r = Some code →
  (code, name) ∈ symbolic_names →
  returned (bt_transport_text r) σ = Some name.
Proof.
  intros Hr Hin. rewrite symbolic_names_macros in Hin.
  apply list_elem_of_fmap in Hin as (m & [= -> ->] & Hm).
  unfold returned. by rewrite (bt_transport_text_case σ r m).
Qed.

Lemma bt_transport_text_symbolic_name_witness :
  ({[1%positive := 1]} : gmap positive Z) !! 1%positive = Some 1
  ∧ (1, "BT_TRANSPORT_BR_EDR") ∈ symbolic_names
  ∧ returned (bt_transport_text 1%positive) {[1%positive := 1]}
    = Some "BT_TRANSPORT_BR_EDR".
Proof.
  assert (H1 : ({[1%positive := 1]} : gmap positive Z) !! 1%positive = Some 1)
    by reflexivity.
  assert (H2 : (1, "BT_TRANSPORT_BR_EDR") ∈ symbolic_names)
    by (unfold symbolic_names; do 2 constructor).
  exact (conj H1 (conj H2 (bt_transport_text_symbolic_name _ _ _ _ H1 H2))).
Defined.

Example bt_transport_text_0 :
  returned (bt_transport_text 5%positive) {[5%positive := 0]}
  = Some "BT_TRANSPORT_AUTO".
Proof. reflexivity. Qed.

Example bt_transport_text_1 :
  returned (bt_transport_text 5%positive) {[5%positive := 1]}
  = Some "BT_TRANSPORT_BR_EDR".
Proof. reflexivity. Qed.

Example bt_transport_text_2 :
  returned (bt_transport_text 5%positive) {[5%positive := 2]}
  = Some "BT_TRANSPORT_LE".
Proof. reflexivity. Qed.

(** C2: for an 8-bit code other than 0, 1 and 2 the function returns
    exactly UNKNOWN[<value>], where <value> is the decimal
    representation of the code. *)
Theorem bt_transport_text_fallback (σ : gmap positive Z) r code :
  σ !! r = Some code →
  is_uint8 code →
  ¬ recognized code →
  returned (bt_transport_text r) σ
  = Some ("UNKNOWN[" +:+ decimal_representation code +:+ "]").
Proof.
  intros Hr Hrange Hunk. unfold returned.
  rewrite (bt_transport_text_default σ r code) by done.
  by rewrite to_string_decimal.
Qed.

Lemma bt_transport_text_fallback_witness :
  ({[1%positive := 255]} : gmap positive Z) !! 1%positive = Some 255
  ∧ is_uint8 255
  ∧ ¬ recognized 255
  ∧ returned (bt_transport_text 1%positive) {[1%positive := 255]}
    = Some "UNKNOWN[255]".
Proof.
  assert (H1 : ({[1%positive := 255]} : gmap positive Z) !! 1%positive
               = Some 255) by reflexivity.
  assert (H2 : is_uint8 255) by (unfold is_uint8, UINT8_MAX; lia).
  assert (H3 : ¬ recognized 255) by (unfold recognized; lia).
  exact (conj H1 (conj H2 (conj H3
           (bt_transport_text_fallback _ _ _ H1 H2 H3)))).
Defined.

Example bt_transport_text_3 :
  returned (bt_transport_text 5%positive) {[5%positive := 3]}
  = Some "UNKNOWN[3]".
Proof. reflexivity. Qed.

Example bt_transport_text_7 :
  returned (bt_transport_text 5%positive) {[5%positive := 7]}
  = Some "UNKNOWN[7]".
Proof. reflexivity. Qed.

Example bt_transport_text_255 :
  returned (bt_transport_text 5%positive) {[5%positive := 255]}
  = Some "UNKNOWN[255]".
Proof. reflexivity. Qed.

(** ** Shape of the returned label *)

Lemma fallback_inj (a b : string) :
  ("UNKNOWN[" +:+ a) +:+ "]" = ("UNKNOWN[" +:+ b) +:+ "]" → a = b.
Proof.
  intros Heq. apply string_app_inj_r in Heq.
  by apply (inj (String.append "UNKNOWN[")) in Heq.
Qed.

Lemma transport_macro_cases m :
  m ∈ [BT_TRANSPORT_AUTO; BT_TRANSPORT_BR_EDR; BT_TRANSPORT_LE] →
  m = BT_TRANSPORT_AUTO ∨ m = BT_TRANSPORT_BR_EDR ∨ m = BT_TRANSPORT_LE.
Proof. rewrite !elem_of_cons, elem_of_nil. tauto. Qed.

Lemma stringify_not_fallback m (a : string) :
  m ∈ [BT_TRANSPORT_AUTO; BT_TRANSPORT_BR_EDR; BT_TRANSPORT_LE] →
  stringify m ≠ ("UNKNOWN[" +:+ a) +:+ "]".
Proof.
  intros Hm.
  destruct (transport_macro_cases m Hm) as [-> | [-> | ->]]; discriminate.
Qed.

Lemma stringify_inj m1 m2 :
  m1 ∈ [BT_TRANSPORT_AUTO; BT_TRANSPORT_BR_EDR; BT_TRANSPORT_LE] →
  m2 ∈ [BT_TRANSPORT_AUTO; BT_TRANSPORT_BR_EDR; BT_TRANSPORT_LE] →
  stringify m1 = stringify m2 → m1 = m2.
Proof.
  intros Hm1 Hm2 Heq.
  destruct (transport_macro_cases m1 Hm1) as [-> | [-> | ->]];
    destruct (transport_macro_cases m2 Hm2) as [-> | [-> | ->]];
    first [reflexivity | discriminate Heq].
Qed.

Lemma prefix_fallback (a : string) :
  String.prefix "UNKNOWN[" (("UNKNOWN[" +:+ a) +:+ "]") = true.
Proof.
  change (String.prefix "" (a +:+ "]") = true).
  by destruct (a +:+ "]").
Qed.

Lemma length_fallback (a : string) :
  String.length (("UNKNOWN[" +:+ a) +:+ "]") = (9 + String.length a)%nat.
Proof. rewrite !string_length_app. simpl. lia. Qed.

(** C3: the function is total on the 8-bit domain.  Whatever code the
    referenced object holds, a string is returned; a code that is not
    recognized is no error, it gives the fallback label. *)
Theorem bt_transport_text_total (σ : gmap positive Z) r code :
  σ !! r = Some code →
  is_uint8 code →
  ∃ text, returned (bt_transport_text r) σ = Some text
          ∧ (¬ recognized code → text = fallback_label code).
Proof.
  intros Hr Hrange. unfold returned. switch_on σ r code Hr.
  - exists (stringify m). split; [done | tauto].
  - eexists. split; [done|]. intros _.
    by rewrite to_string_decimal.
Qed.

Lemma bt_transport_text_total_witness :
  ({[2%positive := 200]} : gmap positive Z) !! 2%positive = Some 200
  ∧ is_uint8 200
  ∧ ∃ text, returned (bt_transport_text 2%positive) {[2%positive := 200]}
            = Some text
            ∧ (¬ recognized 200 → text = fallback_label 200).
Proof.
  assert (H1 : ({[2%positive := 200]} : gmap positive Z) !! 2%positive
               = Some 200) by reflexivity.
  assert (H2 : is_uint8 200) by (unfold is_uint8, UINT8_MAX; lia).
  exact (conj H1 (conj H2 (bt_transport_text_total _ _ _ H1 H2))).
Defined.

(** C4: for every 8-bit code the returned string is not empty. *)
Theorem bt_transport_text_nonempty (σ : gmap positive Z) r code :
  σ !! r = Some code →
  is_uint8 code →
  ∃ text, returned (bt_transport_text r) σ = Some text ∧ text ≠ "".
Proof.
  intros Hr _. unfold returned. switch_on σ r code Hr.
  - exists (stringify m). split; [done|].
    destruct (transport_macro_cases m Hm) as [-> | [-> | ->]]; discriminate.
  - eexists. split; [done | discriminate].
Qed.

Lemma bt_transport_text_nonempty_witness :
  ({[1%positive := 0]} : gmap positive Z) !! 1%positive = Some 0
  ∧ is_uint8 0
  ∧ ∃ text, returned (bt_transport_text 1%positive) {[1%positive := 0]}
            = Some text ∧ text ≠ "".
Proof.
  assert (H1 : ({[1%positive := 0]} : gmap positive Z) !! 1%positive = Some 0)
    by reflexivity.
  assert (H2 : is_uint8 0) by (unfold is_uint8, UINT8_MAX; lia).
  exact (conj H1 (conj H2 (bt_transport_text_nonempty _ _ _ H1 H2))).
Defined.

(** C5: the function is deterministic and pure.  Two calls that read the
    same code return the same string, whatever else the two stores hold
    and wherever the two referenced objects live. *)
Theorem bt_transport_text_deterministic
    (σ1 σ2 : gmap positive Z) r1 r2 code :
  σ1 !! r1 = Some code →
  σ2 !! r2 = Some code →
  returned (bt_transport_text r1) σ1 = returned (bt_transport_text r2) σ2.
Proof.
  intros Hr1 Hr2. unfold returned.
  destruct (decide (recognized code)) as [Hrec|Hrec].
  - destruct (recognized_cases code Hrec) as (m & -> & Hm).
    by rewrite (bt_transport_text_case σ1 r1 m), (bt_transport_text_case σ2 r2 m).
  - by rewrite (bt_transport_text_default σ1 r1 code),
         (bt_transport_text_default σ2 r2 code).
Qed.

Lemma bt_transport_text_deterministic_witness :
  ({[1%positive := 9]} : gmap positive Z) !! 1%positive = Some 9
  ∧ (<[7%positive := 9]> {[1%positive := 2]} : gmap positive Z) !! 7%positive
    = Some 9
  ∧ returned (bt_transport_text 1%positive) {[1%positive := 9]}
    = returned (bt_transport_text 7%positive)
        (<[7%positive := 9]> {[1%positive := 2]}).
Proof.
  assert (H1 : ({[1%positive := 9]} : gmap positive Z) !! 1%positive = Some 9)
    by reflexivity.
  assert (H2 : (<[7%positive := 9]> {[1%positive := 2]} : gmap positive Z)
                 !! 7%positive = Some 9) by reflexivity.
  exact (conj H1 (conj H2 (bt_transport_text_deterministic _ _ _ _ _ H1 H2))).
Defined.

(** C6: the header leaves exactly three named integer constants defined:
    BT_TRANSPORT_AUTO with value 0, BT_TRANSPORT_BR_EDR with value 1 and
    BT_TRANSPORT_LE with value 2.  The helper macro does not survive the
    header, and it never was an integer constant. *)
Theorem exported_transport_constants :
  exported_constants bt_transport_h
  = list_to_map [ ("BT_TRANSPORT_AUTO", 0);
                  ("BT_TRANSPORT_BR_EDR", 1);
                  ("BT_TRANSPORT_LE", 2) ]
  ∧ size (exported_constants bt_transport_h) = 3%nat
  ∧ preprocess bt_transport_h !! "CASE_RETURN_TEXT" = None
  ∧ expand BT_TRANSPORT_AUTO = 0
  ∧ expand BT_TRANSPORT_BR_EDR = 1
  ∧ expand BT_TRANSPORT_LE = 2.
Proof. repeat split; reflexivity. Qed.

(** C7: the call has no side effect.  It leaves the store as it found
    it: the referenced object still holds the code that was passed, and
    no other object was created, changed or removed. *)
Theorem bt_transport_text_frame (σ : gmap positive Z) r code :
  σ !! r = Some code →
  final_store (bt_transport_text r) σ = Some σ.
Proof.
  intros Hr. unfold final_store. by switch_on σ r code Hr.
Qed.

Lemma bt_transport_text_frame_witness :
  (<[3%positive := 77]> {[1%positive := 2]} : gmap positive Z) !! 3%positive
  = Some 77
  ∧ final_store (bt_transport_text 3%positive)
      (<[3%positive := 77]> {[1%positive := 2]})
    = Some (<[3%positive := 77]> {[1%positive := 2]}).
Proof.
  assert (H1 : (<[3%positive := 77]> {[1%positive := 2]} : gmap positive Z)
                 !! 3%positive = Some 77) by reflexivity.
  exact (conj H1 (bt_transport_text_frame _ _ _ H1)).
Defined.

(** C8: the function is injective on the 8-bit domain: two different
    codes never get the same label. *)
Theorem bt_transport_text_injective
    (σ1 σ2 : gmap positive Z) r1 r2 code1 code2 :
  σ1 !! r1 = Some code1 →
  σ2 !! r2 = Some code2 →
  is_uint8 code1 →
  is_uint8 code2 →
  code1 ≠ code2 →
  returned (bt_transport_text r1) σ1 ≠ returned (bt_transport_text r2) σ2.
Proof.
  intros Hr1 Hr2 Hu1 Hu2 Hne. unfold returned.
  destruct (decide (recognized code1)) as [Hrec1|Hrec1];
    destruct (decide (recognized code2)) as [Hrec2|Hrec2].
  - destruct (recognized_cases code1 Hrec1) as (m1 & -> & Hm1).
    destruct (recognized_cases code2 Hrec2) as (m2 & -> & Hm2).
    rewrite (bt_transport_text_case σ1 r1 m1), (bt_transport_text_case σ2 r2 m2)
      by done.
    simpl fmap. intros Heq%(inj Some). apply Hne. f_equal. by apply stringify_inj.
  - destruct (recognized_cases code1 Hrec1) as (m1 & -> & Hm1).
    rewrite (bt_transport_text_case σ1 r1 m1) by done.
    rewrite (bt_transport_text_default σ2 r2 code2) by done.
    simpl fmap. intros Heq%(inj Some). by apply stringify_not_fallback in Heq.
  - destruct (recognized_cases code2 Hrec2) as (m2 & -> & Hm2).
    rewrite (bt_transport_text_default σ1 r1 code1) by done.
    rewrite (bt_transport_text_case σ2 r2 m2) by done.
    simpl fmap. intros Heq%(inj Some). symmetry in Heq. by apply stringify_not_fallback in Heq.
  - rewrite (bt_transport_text_default σ1 r1 code1) by done.
    rewrite (bt_transport_text_default σ2 r2 code2) by done.
    simpl fmap. intros Heq%(inj Some). apply Hne. apply fallback_inj in Heq.
    unfold is_uint8, UINT8_MAX in *.
    apply to_string_inj; [unfold INT_MAX; lia .. | done].
Qed.

Lemma bt_transport_text_injective_witness :
  ({[1%positive := 12]} : gmap positive Z) !! 1%positive = Some 12
  ∧ ({[1%positive := 21]} : gmap positive Z) !! 1%positive = Some 21
  ∧ is_uint8 12 ∧ is_uint8 21 ∧ 12 ≠ 21
  ∧ returned (bt_transport_text 1%positive) {[1%positive := 12]}
    ≠ returned (bt_transport_text 1%positive) {[1%positive := 21]}.
Proof.
  assert (H1 : ({[1%positive := 12]} : gmap positive Z) !! 1%positive
               = Some 12) by reflexivity.
  assert (H2 : ({[1%positive := 21]} : gmap positive Z) !! 1%positive
               = Some 21) by reflexivity.
  assert (H3 : is_uint8 12) by (unfold is_uint8, UINT8_MAX; lia).
  assert (H4 : is_uint8 21) by (unfold is_uint8, UINT8_MAX; lia).
  assert (H5 : 12 ≠ 21) by lia.
  exact (conj H1 (conj H2 (conj H3 (conj H4 (conj H5
           (bt_transport_text_injective _ _ _ _ _ _ H1 H2 H3 H4 H5)))))).
Defined.

(** C9: the returned string starts with UNKNOWN[ exactly when the code
    is not one of 0, 1 and 2. *)
Theorem bt_transport_text_unknown_prefix (σ : gmap positive Z) r code :
  σ !! r = Some code →
  is_uint8 code →
  ∃ text, returned (bt_transport_text r) σ = Some text
          ∧ (String.prefix "UNKNOWN[" text = true ↔ ¬ recognized code).
Proof.
  intros Hr _. unfold returned. switch_on σ r code Hr.
  - exists (stringify m). split; [done|].
    split; [|tauto]. intros Hprefix. exfalso.
    destruct (transport_macro_cases m Hm) as [-> | [-> | ->]];
      discriminate Hprefix.
  - exists (("UNKNOWN[" +:+ to_string code) +:+ "]"). split; [done|].
    split; [tauto|]. intros _. apply prefix_fallback.
Qed.

Lemma bt_transport_text_unknown_prefix_witness :
  ({[1%positive := 2]} : gmap positive Z) !! 1%positive = Some 2
  ∧ is_uint8 2
  ∧ ∃ text, returned (bt_transport_text 1%positive) {[1%positive := 2]}
            = Some text
            ∧ (String.prefix "UNKNOWN[" text = true ↔ ¬ recognized 2).
Proof.
  assert (H1 : ({[1%positive := 2]} : gmap positive Z) !! 1%positive = Some 2)
    by reflexivity.
  assert (H2 : is_uint8 2) by (unfold is_uint8, UINT8_MAX; lia).
  exact (conj H1 (conj H2 (bt_transport_text_unknown_prefix _ _ _ H1 H2))).
Defined.

(** C10: for every 8-bit code the returned string has at least 10 and at
    most 19 characters. *)
Theorem bt_transport_text_length (σ : gmap positive Z) r code :
  σ !! r = Some code →
  is_uint8 code →
  ∃ text, returned (bt_transport_text r) σ = Some text
          ∧ (10 ≤ String.length text ≤ 19)%nat.
Proof.
  intros Hr Hrange. unfold returned. switch_on σ r code Hr.
  - exists (stringify m). split; [done|].
    destruct (transport_macro_cases m Hm) as [-> | [-> | ->]]; simpl; lia.
  - exists (("UNKNOWN[" +:+ to_string code) +:+ "]"). split; [done|].
    rewrite length_fallback.
    pose proof (length_to_string_uint8 code Hrange). lia.
Qed.

Lemma bt_transport_text_length_witness :
  ({[1%positive := 3]} : gmap positive Z) !! 1%positive = Some 3
  ∧ is_uint8 3
  ∧ ∃ text, returned (bt_transport_text 1%positive) {[1%positive := 3]}
            = Some text
            ∧ (10 ≤ String.length text ≤ 19)%nat.
Proof.
  assert (H1 : ({[1%positive := 3]} : gmap positive Z) !! 1%positive = Some 3)
    by reflexivity.
  assert (H2 : is_uint8 3) by (unfold is_uint8, UINT8_MAX; lia).
  exact (conj H1 (conj H2 (bt_transport_text_length _ _ _ H1 H2))).
Defined.

(** Both bounds are met: by a one-digit fallback and by the longest
    symbolic name. *)
Example shortest_label :
  (String.length <$> returned (bt_transport_text 1%positive) {[1%positive := 3]})
  = Some 10%nat.
Proof. reflexivity. Qed.

Example longest_label :
  (String.length <$> returned (bt_transport_text 1%positive) {[1%positive := 1]})
  = Some 19%nat.
Proof. reflexivity. Qed.

(** * Further properties of [bt_transport_text] *)

(** ** Digits written by [std::to_string] *)

Lemma string_forallb_app p (s t : string) :
  string_forallb p (s +:+ t) = string_forallb p s && string_forallb p t.
Proof.
  induction s as [|c s IH]; [done|].
  change (String c s +:+ t) with (String c (s +:+ t)).
  cbn [string_forallb]. by rewrite IH, andb_assoc.
Qed.

Lemma string_forallb_impl (p q : ascii → bool) (s : string) :
  (∀ c, p c = true → q c = true) →
  string_forallb p s = true → string_forallb q s = true.
Proof.
  intros Hpq. induction s as [|c s IH]; [done|]. cbn [string_forallb].
  rewrite !andb_true_iff. intros [Hc Hs]. auto.
Qed.

Lemma is_digit_digit_char d : 0 <= d <= 9 → is_digit (digit_char d) = true.
Proof.
  intros Hd. unfold is_digit, char_between, digit_char.
  rewrite N_ascii_embedding by lia.
  apply andb_true_iff. split; apply N.leb_le; simpl; lia.
Qed.

Lemma is_digit_label_char c : is_digit c = true → is_label_char c = true.
Proof.
  intros Hc. unfold is_label_char. rewrite Hc.
  by rewrite orb_true_r.
Qed.

Lemma to_chars_10_digits budget : ∀ val written,
  0 <= val →
  string_forallb is_digit written = true →
  string_forallb is_digit (to_chars_10 budget val written) = true.
Proof.
  induction budget as [|budget IH]; intros val written Hval Hw; [done|].
  cbn [to_chars_10].
  assert (Hdigit : is_digit (digit_char (val `mod` 10)) = true).
  { apply is_digit_digit_char. pose proof (Z.mod_pos_bound val 10). lia. }
  destruct (Z.ltb_spec val 10).
  - cbn [string_forallb]. by rewrite Hdigit, Hw.
  - apply IH; [apply Z.div_pos; lia|].
    cbn [string_forallb]. by rewrite Hdigit, Hw.
Qed.

(** The first digit written for a positive value is not a zero. *)
Lemma to_chars_10_leading budget : ∀ val written,
  0 < val < 10 ^ Z.of_nat budget →
  leading_zero (to_chars_10 budget val written) = false.
Proof.
  induction budget as [|budget IH]; intros val written Hval.
  - simpl in Hval. lia.
  - rewrite Nat2Z.inj_succ, Z.pow_succ_r in Hval by lia.
    cbn [to_chars_10]. destruct (Z.ltb_spec val 10) as [Hlt|Hge].
    + cbn [leading_zero]. rewrite Z.mod_small by lia.
      apply Ascii.eqb_neq. intros Heq.
      apply (f_equal digit_of_char) in Heq.
      rewrite digit_of_digit_char in Heq by lia.
      change (digit_of_char "0") with 0 in Heq. lia.
    + apply IH. split.
      * apply Z.div_str_pos. lia.
      * apply Z.div_lt_upper_bound; lia.
Qed.

(** The exact number of digits. *)
Lemma length_to_chars_10_exact budget : ∀ (k : nat) val written,
  (k < budget)%nat →
  (k = 0%nat ∧ 0 <= val < 10) ∨ 10 ^ Z.of_nat k <= val < 10 ^ Z.of_nat (S k) →
  String.length (to_chars_10 budget val written)
  = (S k + String.length written)%nat.
Proof.
  induction budget as [|budget IH]; intros k val written Hk Hval; [lia|].
  cbn [to_chars_10]. destruct (Z.ltb_spec val 10) as [Hlt|Hge].
  - destruct k as [|k]; [done|]. exfalso.
    destruct Hval as [[? _]|[Hlo _]]; [done|].
    rewrite Nat2Z.inj_succ, Z.pow_succ_r in Hlo by lia.
    assert (0 < 10 ^ Z.of_nat k) by (apply Z.pow_pos_nonneg; lia). lia.
  - destruct Hval as [[_ ?]|[Hlo Hhi]]; [lia|].
    destruct k as [|k]; [simpl in Hhi; lia|].
    rewrite (IH k (val / 10)); [cbn [String.length]; lia | lia |].
    right. rewrite !Nat2Z.inj_succ, !Z.pow_succ_r in * by lia. split.
    + apply Z.div_le_lower_bound; lia.
    + apply Z.div_lt_upper_bound; lia.
Qed.

(** ** From the label back to the code *)

(** X1: a symbolic name is returned for its own code only.  When the
    call returns the name the table gives for [c], the code that was
    read is [c]. *)
Theorem symbolic_name_identifies_code
    (σ : gmap positive Z) r code c name :
  σ !! r = Some code →
  (c, name) ∈ symbolic_names →
  returned (bt_transport_text r) σ = Some name →
  code = c.
Proof.
  intros Hr Hin. rewrite symbolic_names_macros in Hin.
  apply list_elem_of_fmap in Hin as (m' & [= -> ->] & Hm').
  unfold returned.
  destruct (decide (recognized code)) as [Hrec|Hrec].
  - destruct (recognized_cases code Hrec) as (m & -> & Hm).
    rewrite (bt_transport_text_case σ r m) by done.
    simpl fmap. intros Heq%(inj Some).
    f_equal. by apply stringify_inj.
  - rewrite (bt_transport_text_default σ r code) by done.
    simpl fmap. intros Heq%(inj Some). symmetry in Heq.
    by apply stringify_not_fallback in Heq.
Qed.

Lemma symbolic_name_identifies_code_witness :
  ({[4%positive := 2]} : gmap positive Z) !! 4%positive = Some 2
  ∧ (2, "BT_TRANSPORT_LE") ∈ symbolic_names
  ∧ returned (bt_transport_text 4%positive) {[4%positive := 2]}
    = Some "BT_TRANSPORT_LE"
  ∧ 2 = 2.
Proof.
  assert (H1 : ({[4%positive := 2]} : gmap positive Z) !! 4%positive = Some 2)
    by reflexivity.
  assert (H2 : (2, "BT_TRANSPORT_LE") ∈ symbolic_names)
    by (unfold symbolic_names; do 3 constructor).
  assert (H3 : returned (bt_transport_text 4%positive) {[4%positive := 2]}
               = Some "BT_TRANSPORT_LE") by reflexivity.
  exact (conj H1 (conj H2 (conj H3
           (symbolic_name_identifies_code _ _ _ _ _ H1 H2 H3)))).
Defined.

(** X2: the fallback label carries the code in a form that reads back.
    For an 8-bit code other than 0, 1 and 2, what stands between the
    brackets is made of decimal digits only, does not start with a zero,
    and its decimal value is the code. *)
Theorem fallback_digits_read_back (σ : gmap positive Z) r code :
  σ !! r = Some code →
  is_uint8 code →
  ¬ recognized code →
  ∃ digits,
    returned (bt_transport_text r) σ = Some ("UNKNOWN[" +:+ digits +:+ "]")
    ∧ string_forallb is_digit digits = true
    ∧ leading_zero digits = false
    ∧ decimal_value digits = code.
Proof.
  intros Hr Hrange Hunk. exists (to_string code).
  unfold is_uint8, UINT8_MAX, recognized in *.
  split; [|split; [|split]].
  - unfold returned. by rewrite (bt_transport_text_default σ r code).
  - unfold to_string. destruct (Z.ltb_spec code 0); [lia|].
    by apply to_chars_10_digits.
  - unfold to_string. destruct (Z.ltb_spec code 0); [lia|].
    apply to_chars_10_leading. unfold INT_DIGITS10. lia.
  - apply decimal_value_to_string. unfold INT_MAX. lia.
Qed.

Lemma fallback_digits_read_back_witness :
  ({[1%positive := 104]} : gmap positive Z) !! 1%positive = Some 104
  ∧ is_uint8 104
  ∧ ¬ recognized 104
  ∧ ∃ digits,
      returned (bt_transport_text 1%positive) {[1%positive := 104]}
      = Some ("UNKNOWN[" +:+ digits +:+ "]")
      ∧ string_forallb is_digit digits = true
      ∧ leading_zero digits = false
      ∧ decimal_value digits = 104.
Proof.
  assert (H1 : ({[1%positive := 104]} : gmap positive Z) !! 1%positive
               = Some 104) by reflexivity.
  assert (H2 : is_uint8 104) by (unfold is_uint8, UINT8_MAX; lia).
  assert (H3 : ¬ recognized 104) by (unfold recognized; lia).
  exact (conj H1 (conj H2 (conj H3
           (fallback_digits_read_back _ _ _ H1 H2 H3)))).
Defined.

(** ** Spelling and size of the label *)

(** X3: every label is spelled with capital letters, digits, underscores
    and square brackets only: for an 8-bit code the returned string has
    no blank, no control character and no sign. *)
Theorem label_characters (σ : gmap positive Z) r code :
  σ !! r = Some code →
  is_uint8 code →
  ∃ text, returned (bt_transport_text r) σ = Some text
          ∧ string_forallb is_label_char text = true.
Proof.
  intros Hr Hrange. unfold returned. switch_on σ r code Hr.
  - exists (stringify m). split; [done|].
    destruct (transport_macro_cases m Hm) as [-> | [-> | ->]]; reflexivity.
  - exists (("UNKNOWN[" +:+ to_string code) +:+ "]"). split; [done|].
    rewrite !string_forallb_app. 
    assert (Hdigits : string_forallb is_label_char (to_string code) = true).
    { apply (string_forallb_impl is_digit); [apply is_digit_label_char|].
      unfold to_string, is_uint8 in *.
      destruct (Z.ltb_spec code 0); [lia|]. by apply to_chars_10_digits. }
    by rewrite Hdigits.
Qed.

Lemma label_characters_witness :
  ({[1%positive := 48]} : gmap positive Z) !! 1%positive = Some 48
  ∧ is_uint8 48
  ∧ ∃ text, returned (bt_transport_text 1%positive) {[1%positive := 48]}
            = Some text
            ∧ string_forallb is_label_char text = true.
Proof.
  assert (H1 : ({[1%positive := 48]} : gmap positive Z) !! 1%positive
               = Some 48) by reflexivity.
  assert (H2 : is_uint8 48) by (unfold is_uint8, UINT8_MAX; lia).
  exact (conj H1 (conj H2 (label_characters _ _ _ H1 H2))).
Defined.

(** Outside the 8-bit range the property is lost: a negative [int]
    would be printed with its sign. *)
Example to_string_sign : to_string (-1) = "-1".
Proof. reflexivity. Qed.

(** X4: the size of a fallback label follows the magnitude of the code:
    10 characters below 10, 11 characters below 100, 12 characters from
    100 on. *)
Theorem fallback_length_by_magnitude (σ : gmap positive Z) r code :
  σ !! r = Some code →
  is_uint8 code →
  ¬ recognized code →
  ∃ text, returned (bt_transport_text r) σ = Some text
          ∧ String.length text
            = if code <? 10 then 10%nat
              else if code <? 100 then 11%nat else 12%nat.
Proof.
  intros Hr Hrange Hunk.
  exists (("UNKNOWN[" +:+ to_string code) +:+ "]"). split.
  { unfold returned. by rewrite (bt_transport_text_default σ r code). }
  rewrite length_fallback. unfold is_uint8, UINT8_MAX, to_string in *.
  destruct (Z.ltb_spec code 0); [lia|].
  destruct (Z.ltb_spec code 10); [|destruct (Z.ltb_spec code 100)].
  - rewrite (length_to_chars_10_exact _ 0) by (unfold INT_DIGITS10; lia).
    done.
  - rewrite (length_to_chars_10_exact _ 1)
      by (unfold INT_DIGITS10; simpl; lia).
    done.
  - rewrite (length_to_chars_10_exact _ 2)
      by (unfold INT_DIGITS10; simpl; lia).
    done.
Qed.

Lemma fallback_length_by_magnitude_witness :
  ({[1%positive := 99]} : gmap positive Z) !! 1%positive = Some 99
  ∧ is_uint8 99
  ∧ ¬ recognized 99
  ∧ ∃ text, returned (bt_transport_text 1%positive) {[1%positive := 99]}
            = Some text
            ∧ String.length text
              = if 99 <? 10 then 10%nat
                else if 99 <? 100 then 11%nat else 12%nat.
Proof.
  assert (H1 : ({[1%positive := 99]} : gmap positive Z) !! 1%positive
               = Some 99) by reflexivity.
  assert (H2 : is_uint8 99) by (unfold is_uint8, UINT8_MAX; lia).
  assert (H3 : ¬ recognized 99) by (unfold recognized; lia).
  exact (conj H1 (conj H2 (conj H3
           (fallback_length_by_magnitude _ _ _ H1 H2 H3)))).
Defined.
